(** * Chat templates registry and instrumentation flags

    A shallow embedding of
    - [src/adapters/shared/llmChatTemplates.ts]: the role bucketing done by
      [messagesToPromptFactory], the three built-in templates and the static
      class [LLMChatTemplates] ([register], [has], [get]);
    - the instrumentation configuration module
      ([INSTRUMENTATION_IGNORED_KEYS]).

    The registry is a JavaScript object literal used as a map.  Its own
    properties are a [gmap]; what the [in] operator, property reads and
    property writes do beyond the own properties (the prototype chain) is
    written out, because [register], [has] and [get] are built on exactly
    these three operations. *)

From Stdlib Require Import Ascii String.
From stdpp Require Import base strings list gmap.

Set Warnings "-register-all".
Set Default Proof Using "Type".
Local Open Scope string_scope.

(** ** Outcomes of calls that may throw *)

(** [new ValueError(message, [], { context })]: the message and the context
    entries (here only [validModels], a list of names). *)
Record ValueError := {
  message : string;
  context : list (string * list string);
}.

Inductive outcome (A : Type) : Type :=
| Returns (a : A)
| Throws (e : ValueError).
Arguments Returns {A} a.
Arguments Throws {A} e.

(** ** Strings *)

(** [l.join(sep)] on an array of strings. *)
Fixpoint join (sep : string) (l : list string) : string :=
  match l with
  | [] => ""
  | [x] => x
  | x :: l' => x +:+ sep +:+ join sep l'
  end.

(** [s.split(sep)] for a one-character separator: always at least one
    piece, and an empty piece between two adjacent separators. *)
Fixpoint split (sep : ascii) (s : string) : list string :=
  match s with
  | EmptyString => [EmptyString]
  | String c s' =>
      if Ascii.eqb c sep then EmptyString :: split sep s'
      else match split sep s' with
           | piece :: pieces => String c piece :: pieces
           | [] => [String c EmptyString]
           end
  end.

Definition occurs (c : ascii) (s : string) : Prop :=
  c ∈ list_ascii_of_string s.

(** ** Messages *)

(** [BaseMessage]: only [role] and [text] are read by this module. *)
Record BaseMessage := {
  role : string;
  text : string;
}.

(** ** The template engine *)

Module Mustache.

(** The templating component behind [PromptTemplate] is not among the
    sources: this module is modelled from the spec (section 6: "named
    variables, conditional sections keyed by boolean/array truthiness,
    repeated-section iteration") for the template syntax the built-in
    templates use. *)

(** Values of a view, as [messagesToPrompt] builds them: strings, arrays
    and objects. *)
Inductive value :=
| VStr (s : string)
| VList (items : list value)
| VObj (fields : gmap string value).

(** What the scanner sees: literal text and the raw inside of a
    [{{ ... }}] tag. *)
Inductive lexeme :=
| LText (s : string)
| LTag (raw : string).

Inductive token :=
| Text (s : string)
| Name (name : string)
| Section (name : string) (body : list token).

Definition rev_string (acc : list ascii) : string :=
  string_of_list_ascii (rev acc).

(** Modelled from the spec: the scanner of the external templating
    component (absent from the sources); it cuts the template at [{{] and
    [}}].  [None] stands for a tag that is never closed. *)
Fixpoint scan (s : string) (in_tag : bool) (acc : list ascii)
  : option (list lexeme) :=
  match s with
  | EmptyString =>
      if in_tag then None
      else Some (match acc with [] => [] | _ => [LText (rev_string acc)] end)
  | String c s' =>
      match in_tag, c, s' with
      | false, "{"%char, String "{"%char s'' =>
          let rest := scan s'' true [] in
          match acc with
          | [] => rest
          | _ => cons (LText (rev_string acc)) <$> rest
          end
      | true, "}"%char, String "}"%char s'' =>
          cons (LTag (rev_string acc)) <$> scan s'' false []
      | _, _, _ => scan s' in_tag (c :: acc)
      end
  end.

(** Modelled from the spec: blanks around the name in a tag do not count
    ([{{ end }}] names [end]). *)
Definition is_white (c : ascii) : bool :=
  match c with
  | " "%char | "009"%char | "010"%char | "013"%char => true
  | _ => false
  end.

Fixpoint trim_left (s : string) : string :=
  match s with
  | String c s' => if is_white c then trim_left s' else s
  | EmptyString => EmptyString
  end.

Fixpoint trim_right (s : string) : string :=
  match s with
  | EmptyString => EmptyString
  | String c s' =>
      match trim_right s' with
      | EmptyString => if is_white c then EmptyString else String c EmptyString
      | t => String c t
      end
  end.

Definition trim (s : string) : string := trim_right (trim_left s).

Inductive tag :=
| TName (name : string)
| TOpen (name : string)
| TClose (name : string).

(** Modelled from the spec: the three kinds of tag the spec names (named
    variables, sections, their closing tags).  The kind is read off the
    first character of the tag; every other sigil of the external
    component (inverted sections, comments, partials, unescaped
    variables, delimiter changes) is outside the model ([None]). *)
Definition classify (raw : string) : option tag :=
  match raw with
  | String "#"%char n => Some (TOpen (trim n))
  | String "/"%char n => Some (TClose (trim n))
  | String "^"%char _ | String "!"%char _ | String ">"%char _
  | String "{"%char _ | String "&"%char _ | String "="%char _ => None
  | n => Some (TName (trim n))
  end.

(** Modelled from the spec: sections nest; [stack] holds the enclosing
    open sections with what was read before each of them, [cur] the
    tokens of the innermost one, newest first. *)
Fixpoint nest (ls : list lexeme) (cur : list token)
    (stack : list (string * list token)) : option (list token) :=
  match ls with
  | [] => match stack with [] => Some (rev cur) | _ => None end
  | LText s :: ls' => nest ls' (Text s :: cur) stack
  | LTag raw :: ls' =>
      match classify raw with
      | None => None
      | Some (TName n) => nest ls' (Name n :: cur) stack
      | Some (TOpen n) => nest ls' [] ((n, cur) :: stack)
      | Some (TClose n) =>
          match stack with
          | (n', outer) :: stack' =>
              if String.eqb n n'
              then nest ls' (Section n (rev cur) :: outer) stack'
              else None
          | [] => None
          end
      end
  end.

(** Modelled from the spec: the parser of the external templating
    component, for the tags above; [None] stands for a template it
    rejects. *)
Definition parse (source : string) : option (list token) :=
  scan source false [] ≫= λ ls, nest ls [] [].

(** Modelled from the spec: the name resolution of the external
    templating component; a name is looked up in the innermost context
    that is an object with that field, then outwards. *)
Fixpoint lookup (name : string) (ctx : list value) : option value :=
  match ctx with
  | [] => None
  | VObj fields :: ctx' =>
      match fields !! name with
      | Some v => Some v
      | None => lookup name ctx'
      end
  | _ :: ctx' => lookup name ctx'
  end.

(** Modelled from the spec: the text the external component inserts for a
    value, JavaScript's [String(v)]; an array is its elements joined by
    commas. *)
Fixpoint to_string (v : value) : string :=
  match v with
  | VStr s => s
  | VList items => join "," (map to_string items)
  | VObj _ => "[object Object]"
  end.

(** Modelled from the spec: "named variables, conditional sections keyed
    by boolean/array truthiness, repeated-section iteration".  A variable
    is replaced by the text of its value, verbatim, and by nothing when
    it is not defined; a section is emitted once per element of an array
    (so not at all for an empty one) with the element as innermost
    context, once for another defined non-empty value, and not at all
    otherwise.  The result is the list of emitted pieces in order. *)
Fixpoint render_token (ctx : list value) (t : token) : list string :=
  match t with
  | Text s => [s]
  | Name n =>
      match lookup n ctx with
      | Some v => [to_string v]
      | None => []
      end
  | Section n body =>
      let render_body ctx' := flat_map (render_token ctx') body in
      match lookup n ctx with
      | None => []
      | Some (VList items) =>
          flat_map (λ item, render_body (item :: ctx)) items
      | Some (VStr EmptyString) => []
      | Some v => render_body (v :: ctx)
      end
  end.

(** Modelled from the spec: the pieces a whole template emits. *)
Definition render_tokens (ctx : list value) (ts : list token) : list string :=
  flat_map (render_token ctx) ts.

(** Modelled from the spec: the entry point of the external templating
    component, from the template text and the view to the output. *)
Definition render (source : string) (view : gmap string value)
  : option string :=
  parse source ≫= λ ts, Some (String.concat "" (render_tokens [VObj view] ts)).

End Mustache.

(** [new PromptTemplate({ variables, template })]. *)
Record PromptTemplate := {
  variables : list string;
  template_source : string;
}.

(** Modelled from the spec: [PromptTemplate.render] lives in [@/template.js],
    which is not among the sources; it hands the template text and the
    inputs to the templating component.  [None] stands for a template the
    component rejects. *)
Definition PromptTemplate_render (t : PromptTemplate)
    (inputs : gmap string Mustache.value) : option string :=
  Mustache.render (template_source t) inputs.

(** ** [llmChatTemplates.ts] *)

Record Parameters := {
  stop_sequence : list string;
}.

Record Template := {
  template : PromptTemplate;
  messagesToPrompt : PromptTemplate → list BaseMessage → option string;
  parameters : Parameters;
}.

(** The literal [{ system: "system", user: "user", assistant: "assistant" }]. *)
Definition default_roles : gmap string string :=
  <["system" := "system"]> (<["user" := "user"]> (<["assistant" := "assistant"]> ∅)).

(** [pickBy({ ...defaults, ...rolesOverride }, isDefined)]: the override
    wins on a common key, and a key whose value is [undefined] ([Some None]
    in the override) is removed. *)
Definition roles_of (rolesOverride : gmap string (option string))
    : gmap string string :=
  omap id (rolesOverride ∪ (Some <$> default_roles)).

(** [mapValues(roles, (role) => (message.role === role ? [message.text] : []))] *)
Definition buckets (roles : gmap string string) (message : BaseMessage)
    : gmap string (list string) :=
  (λ r, if decide (role message = r) then [text message] else []) <$> roles.

(** [messages.map((message) => mapValues(roles, ...))] *)
Definition group (roles : gmap string string) (messages : list BaseMessage)
    : list (gmap string (list string)) :=
  map (buckets roles) messages.

Definition bucket_value (b : gmap string (list string)) : Mustache.value :=
  Mustache.VObj ((λ texts, Mustache.VList (map Mustache.VStr texts)) <$> b).

Definition messages_view (roles : gmap string string)
    (messages : list BaseMessage) : gmap string Mustache.value :=
  {[ "messages" := Mustache.VList (map bucket_value (group roles messages)) ]}.

Definition messagesToPromptFactory (rolesOverride : gmap string (option string))
    : PromptTemplate → list BaseMessage → option string :=
  let roles := roles_of rolesOverride in
  λ template messages,
    PromptTemplate_render template (messages_view roles messages).

Definition nl : string := String "010"%char EmptyString.

Definition llama31 : Template := {|
  template := {|
    variables := ["messages"];
    template_source :=
      "{{#messages}}{{#system}}<|begin_of_text|><|start_header_id|>system<|end_header_id|>" +:+ nl +:+
      nl +:+
      "{{system}}<|eot_id|>{{/system}}{{#user}}<|start_header_id|>user<|end_header_id|>" +:+ nl +:+
      nl +:+
      "{{user}}<|eot_id|>{{/user}}{{#assistant}}<|start_header_id|>assistant<|end_header_id|>" +:+ nl +:+
      nl +:+
      "{{assistant}}<|eot_id|>{{/assistant}}{{#ipython}}<|start_header_id|>ipython<|end_header_id|>" +:+ nl +:+
      nl +:+
      "{{ipython}}<|eot_id|>{{/ipython}}{{/messages}}<|start_header_id|>assistant<|end_header_id|>" +:+ nl
  |};
  messagesToPrompt := messagesToPromptFactory {[ "ipython" := Some "ipython" ]};
  parameters := {| stop_sequence := ["<|eot_id|>"] |};
|}.

Definition llama3 : Template := {|
  template := {|
    variables := ["messages"];
    template_source :=
      "{{#messages}}{{#system}}<|begin_of_text|><|start_header_id|>system<|end_header_id|>" +:+ nl +:+
      nl +:+
      "{{system}}<|eot_id|>{{/system}}{{#user}}<|start_header_id|>user<|end_header_id|>" +:+ nl +:+
      nl +:+
      "{{user}}<|eot_id|>{{/user}}{{#assistant}}<|start_header_id|>assistant<|end_header_id|>" +:+ nl +:+
      nl +:+
      "{{assistant}}<|eot_id|>{{/assistant}}{{/messages}}<|start_header_id|>assistant<|end_header_id|>" +:+ nl
  |};
  messagesToPrompt := messagesToPromptFactory ∅;
  parameters := {| stop_sequence := ["<|eot_id|>"] |};
|}.

Definition qwen2 : Template := {|
  template := {|
    variables := ["messages"];
    template_source :=
      "{{#messages}}{{#system}}<|im_start|>system" +:+ nl +:+
      "{{system}}<|im_end|>" +:+ nl +:+
      "{{ end }}{{/system}}{{#user}}<|im_start|>user" +:+ nl +:+
      "{{user}}<|im_end|>" +:+ nl +:+
      "{{ end }}{{/user}}{{#assistant}}<|im_start|>assistant" +:+ nl +:+
      "{{assistant}}<|im_end|>" +:+ nl +:+
      "{{ end }}{{/assistant}}{{/messages}}<|im_start|>assistant" +:+ nl
  |};
  messagesToPrompt := messagesToPromptFactory ∅;
  parameters := {| stop_sequence := ["<|im_end|>"] |};
|}.

(** ** The registry object *)

(** What a property read on the registry can produce.  Only the first is
    a [Template]; the next three are reached through the prototype chain:
    a field of a template that has become the prototype, the object
    [Object.prototype] itself, and one of its built-in members. *)
Inductive JsValue :=
| VTemplate (t : Template)
| VTemplateField (t : Template) (field : string)
| VObjectPrototype
| VBuiltin (name : string)
| VUndefined.

(** The registry is created by an object literal, so its prototype is
    [Object.prototype] ([proto = None]) until an assignment to [__proto__]
    replaces it by the assigned template ([proto = Some t]), whose own
    prototype is [Object.prototype] again. *)
Record Registry := {
  own : gmap string Template;
  proto : option Template;
}.

(** The property names of [Object.prototype]. *)
Definition Object_prototype_names : list string :=
  [ "constructor"; "hasOwnProperty"; "isPrototypeOf"; "propertyIsEnumerable";
    "toLocaleString"; "toString"; "valueOf"; "__proto__";
    "__defineGetter__"; "__defineSetter__"; "__lookupGetter__";
    "__lookupSetter__" ].

(** The property names of a template object (the fields of [Template]). *)
Definition Template_field_names : list string :=
  [ "template"; "messagesToPrompt"; "parameters" ].

Definition inherited (r : Registry) (k : string) : bool :=
  match proto r with
  | Some _ => bool_decide (k ∈ Template_field_names)
  | None => false
  end
  || bool_decide (k ∈ Object_prototype_names).

(** [k in r]: own properties, then the prototype chain. *)
Definition js_in (k : string) (r : Registry) : bool :=
  bool_decide (is_Some (own r !! k)) || inherited r k.

(** [r[k]].  [__proto__] is an accessor of [Object.prototype] that returns
    the prototype of the object read. *)
Definition js_read (r : Registry) (k : string) : JsValue :=
  match own r !! k with
  | Some t => VTemplate t
  | None =>
      match proto r with
      | Some p =>
          if bool_decide (k ∈ Template_field_names) then VTemplateField p k
          else if String.eqb k "__proto__" then VTemplate p
          else if bool_decide (k ∈ Object_prototype_names) then VBuiltin k
          else VUndefined
      | None =>
          if String.eqb k "__proto__" then VObjectPrototype
          else if bool_decide (k ∈ Object_prototype_names) then VBuiltin k
          else VUndefined
      end
  end.

(** [r[k] = t].  An own property is overwritten; otherwise the inherited
    setter of [__proto__] replaces the prototype, and every other name
    becomes (or shadows an inherited data property as) an own property. *)
Definition js_write (r : Registry) (k : string) (t : Template) : Registry :=
  match own r !! k with
  | Some _ => {| own := <[k := t]> (own r); proto := proto r |}
  | None =>
      if String.eqb k "__proto__"
      then {| own := own r; proto := Some t |}
      else {| own := <[k := t]> (own r); proto := proto r |}
  end.

(** [Object.keys(r)]: the own property names.  Their order (JavaScript
    lists integer-like names first, then insertion order) is not
    modelled: a [gmap] enumerates in an order of its own. *)
Definition Object_keys (r : Registry) : list string :=
  (map_to_list (own r)).*1.

(** [Boolean(model && e)] for a string [model]: the empty string is the
    only falsy one. *)
Definition truthy (s : string) : bool :=
  match s with
  | EmptyString => false
  | String _ _ => true
  end.

Module LLMChatTemplates.

Definition registry : Registry := {|
  own := <["llama3.1" := llama31]>
          (<["llama3" := llama3]> (<["qwen2" := qwen2]> ∅));
  proto := None;
|}.

Definition already_exists (model : string) : ValueError := {|
  message := "Template for model '" +:+ model +:+ "' already exists!";
  context := [];
|}.

Definition not_found (model : string) (validModels : list string)
    : ValueError := {|
  message := "Template for model '" +:+ model +:+ "' not found!";
  context := [("validModels", validModels)];
|}.

(** [register] either throws, leaving the registry as it was, or
    assigns and returns nothing. *)
Definition register (model : string) (template : Template)
    (override : bool) (r : Registry) : outcome unit * Registry :=
  if js_in model r && negb override
  then (Throws (already_exists model), r)
  else (Returns (), js_write r model template).

Definition has (model : string) (r : Registry) : bool :=
  truthy model && js_in model r.

Definition get (model : string) (r : Registry) : outcome JsValue :=
  if negb (has model r)
  then Throws (not_found model (Object_keys r))
  else Returns (js_read r model).

End LLMChatTemplates.

(** ** Instrumentation flags *)

(** Modelled from the spec: [parseEnv] lives in [@/internals/env.js], which
    is not among the sources.  With the schema [z.string()] it yields the
    value of the variable when it is set and the default otherwise. *)
Definition parseEnv (env : gmap string string) (key : string)
    (defaultValue : string) : string :=
  default defaultValue (env !! key).

Definition INSTRUMENTATION_IGNORED_KEYS (env : gmap string string)
    : list string :=
  filter (λ item, 0 < String.length item)
    (split ","%char (parseEnv env "BEE_FRAMEWORK_INSTRUMENTATION_IGNORED_KEYS" "")).

(** ** Recognized roles and the shape of the chat templates *)

(** The roles some bucket stands for: the values of the role mapping. *)
Definition recognized (roles : gmap string string) (r : string) : bool :=
  bool_decide (r ∈ (map_to_list roles).*2).

(** Inside a role section the built-in templates have only literal text and
    variables, none of them named [messages]. *)
Definition plain (t : Mustache.token) : bool :=
  match t with
  | Mustache.Text _ => true
  | Mustache.Name n => negb (String.eqb n "messages")
  | Mustache.Section _ _ => false
  end.

(** A section keyed by one of the buckets of [roles]. *)
Definition bucket_section (roles : gmap string string) (t : Mustache.token)
    : bool :=
  match t with
  | Mustache.Section b inner =>
      bool_decide (is_Some (roles !! b)) && forallb plain inner
  | _ => false
  end.

(** A chat template: one role section after the other, repeated for every
    message, then a closing literal (the open assistant header). *)
Definition chat_shaped (roles : gmap string string)
    (ts : list Mustache.token) : bool :=
  match ts with
  | [Mustache.Section n body; Mustache.Text _] =>
      String.eqb n "messages" && forallb (bucket_section roles) body
  | _ => false
  end.

(** What the role sections [body] emit for the message [m] when the whole
    input is [all]. *)
Definition render_message (roles : gmap string string)
    (body : list Mustache.token) (all : list BaseMessage) (m : BaseMessage)
    : list string :=
  flat_map (Mustache.render_token
              [bucket_value (buckets roles m);
               Mustache.VObj (messages_view roles all)]) body.

(** ** Callers *)

(** A caller that makes one [register] call after the other, each given as
    (model, template, override), and goes on after a call that throws. *)
Fixpoint register_each (calls : list (string * Template * bool))
    (r : Registry) : Registry :=
  match calls with
  | [] => r
  | (model, t, override) :: calls' =>
      register_each calls' (LLMChatTemplates.register model t override r).2
  end.

(** ** What the built-in templates write for one message *)

(** The llama3 family: the header of the role, a blank line, the text and
    the end-of-turn marker; a system message also opens the text.  A
    message whose role is not among [known] writes nothing. *)
Definition llama_turn (known : list string) (m : BaseMessage) : string :=
  if bool_decide (role m ∈ known)
  then (if String.eqb (role m) "system" then "<|begin_of_text|>" else "")
       +:+ "<|start_header_id|>" +:+ role m +:+ "<|end_header_id|>"
       +:+ nl +:+ nl +:+ text m +:+ "<|eot_id|>"
  else "".

(** qwen2: a start marker with the role, the text on the next line, then
    the end marker and a line break. *)
Definition qwen2_turn (m : BaseMessage) : string :=
  if bool_decide (role m ∈ ["system"; "user"; "assistant"])
  then "<|im_start|>" +:+ role m +:+ nl +:+ text m +:+ "<|im_end|>" +:+ nl
  else "".

(** ** States used as examples *)

Definition an_unknown_role_message : BaseMessage :=
  {| role := "tool"; text := "42" |}.

(** The registry after [LLMChatTemplates.register("", llama3)]. *)
Definition registry_with_empty_name : Registry :=
  (LLMChatTemplates.register "" llama3 false LLMChatTemplates.registry).2.

(** The environment in which only the ignored-keys variable is set. *)
Definition env_with_ignored_keys (v : string) : gmap string string :=
  {[ "BEE_FRAMEWORK_INSTRUMENTATION_IGNORED_KEYS" := v ]}.

(** * Properties *)

Import LLMChatTemplates.

(** ** The registry object *)

Section registry_object.
Implicit Types (r : Registry) (k model : string) (t : Template).

Lemma Object_keys_spec r k : k ∈ Object_keys r ↔ is_Some (own r !! k).
Proof.
  unfold Object_keys. rewrite list_elem_of_fmap. split.
  - intros [[k' t] [-> Hin]]. apply elem_of_map_to_list in Hin. by exists t.
  - intros [t Ht]. exists (k, t). split; [done|]. by apply elem_of_map_to_list.
Qed.

Lemma js_in_own r k : is_Some (own r !! k) → js_in k r = true.
Proof. intros H. unfold js_in. by rewrite bool_decide_eq_true_2. Qed.

Lemma js_in_false r k :
  js_in k r = false ↔ own r !! k = None ∧ inherited r k = false.
Proof.
  unfold js_in. rewrite orb_false_iff, bool_decide_eq_false.
  by rewrite <-eq_None_not_Some.
Qed.

Lemma inherited_proto r : inherited r "__proto__" = true.
Proof. unfold inherited. by destruct (proto r). Qed.

Lemma inherited_empty r : inherited r "" = false.
Proof. unfold inherited. by destruct (proto r). Qed.

Lemma js_read_own r k t : own r !! k = Some t → js_read r k = VTemplate t.
Proof. intros H. unfold js_read. by rewrite H. Qed.

(** Whatever [in] finds, a read finds too: [get] never returns
    [undefined]. *)
Lemma js_read_of_in r k : js_in k r = true → js_read r k ≠ VUndefined.
Proof.
  unfold js_in, inherited, js_read. intros H.
  destruct (own r !! k) as [t|]; [done|]. simpl in H.
  destruct (proto r) as [p|]; simpl in H.
  - destruct (bool_decide (k ∈ Template_field_names)); [done|].
    destruct (String.eqb k "__proto__"); [done|].
    simpl in H. by rewrite H.
  - destruct (String.eqb k "__proto__"); [done|].
    by rewrite H.
Qed.

Lemma get_defined model r : get model r ≠ Returns VUndefined.
Proof.
  unfold get. destruct (has model r) eqn:Hhas; simpl; [|done].
  apply andb_true_iff in Hhas as [_ Hin%js_read_of_in]. congruence.
Qed.

(** A name that [in] does not find is created as an own property. *)
Lemma js_write_fresh r k t :
  js_in k r = false →
  js_write r k t = {| own := <[k := t]> (own r); proto := proto r |}.
Proof.
  intros [Hown Hinh]%js_in_false. unfold js_write. rewrite Hown.
  destruct (String.eqb_spec k "__proto__") as [->|]; [|done].
  by rewrite inherited_proto in Hinh.
Qed.

Lemma js_write_own r k t :
  is_Some (own r !! k) →
  js_write r k t = {| own := <[k := t]> (own r); proto := proto r |}.
Proof. intros [t' H]. unfold js_write. by rewrite H. Qed.

Lemma register_throws model t r :
  js_in model r = true →
  register model t false r = (Throws (already_exists model), r).
Proof. intros H. unfold register. by rewrite H. Qed.

Lemma register_assigns model t override r :
  js_in model r && negb override = false →
  register model t override r = (Returns (), js_write r model t).
Proof. intros H. unfold register. by rewrite H. Qed.

Lemma has_empty r : has "" r = false.
Proof. done. Qed.

Lemma get_empty r : get "" r = Throws (not_found "" (Object_keys r)).
Proof. done. Qed.

Lemma get_own model t r :
  model ≠ "" → own r !! model = Some t → get model r = Returns (VTemplate t).
Proof.
  intros Hne Hown. unfold get, has.
  rewrite js_in_own by eauto. rewrite (js_read_own _ _ t) by done.
  by destruct model.
Qed.

Lemma get_absent model r :
  js_in model r = false → get model r = Throws (not_found model (Object_keys r)).
Proof. intros H. unfold get, has. rewrite H. by rewrite andb_false_r. Qed.

(** On a name the registry object does not inherit, [register] and [has]
    go by the registered keys alone. *)
Lemma register_plain_name model t override r :
  inherited r model = false →
  register model t override r
  = if bool_decide (is_Some (own r !! model)) && negb override
    then (Throws (already_exists model), r)
    else (Returns (), {| own := <[model := t]> (own r); proto := proto r |}).
Proof.
  intros Hinh. unfold register, js_in. rewrite Hinh, orb_false_r.
  destruct (bool_decide (is_Some (own r !! model))) eqn:Hown;
    destruct override; simpl; try done.
  - apply bool_decide_eq_true in Hown. by rewrite js_write_own.
  - apply bool_decide_eq_false in Hown.
    rewrite js_write_fresh; [done|]. apply js_in_false.
    by rewrite eq_None_not_Some.
  - apply bool_decide_eq_false in Hown.
    rewrite js_write_fresh; [done|]. apply js_in_false.
    by rewrite eq_None_not_Some.
Qed.

Lemma has_plain_name model r :
  inherited r model = false →
  has model r = true ↔ model ≠ "" ∧ is_Some (own r !! model).
Proof.
  intros Hinh. unfold has, js_in.
  rewrite Hinh, orb_false_r, andb_true_iff, bool_decide_eq_true.
  destruct model; simpl.
  - split; intros [? _]; congruence.
  - split; intros [_ ?]; split; done.
Qed.

End registry_object.

(** ** [register], [has], [get] *)

(** C1, at the input where the code departs from it: on the initial
    registry [register("toString", t)] throws "already exists" for every
    template [t] and stores nothing, although ["toString"] is none of the
    registry's keys; the [in] test of [register] also finds the names the
    object inherits. *)
Theorem register_inherited_name_throws (t : Template) :
  ("toString" ∉ Object_keys registry) ∧
  own registry !! "toString" = None ∧
  register "toString" t false registry
    = (Throws (already_exists "toString"), registry).
Proof.
  assert (Hown : own registry !! "toString" = None) by (by vm_compute).
  split_and!; [|done|done].
  rewrite Object_keys_spec, Hown. by intros [? ?].
Qed.

(** C2, amended: for a non-empty name that is a registered key [get]
    returns the registered template; for the empty name, and for a name
    that is neither a registered key nor a name the registry object
    inherits, [get] throws the not-found error, whose [validModels] context
    is the list of the registered names. *)
Theorem get_registered_or_not_found (model : string) (r : Registry) :
  (∀ t, model ≠ "" → own r !! model = Some t →
        get model r = Returns (VTemplate t)) ∧
  (model = "" ∨ (own r !! model = None ∧ inherited r model = false) →
   get model r = Throws (not_found model (Object_keys r))) ∧
  (∀ k, k ∈ Object_keys r ↔ is_Some (own r !! k)).
Proof.
  split_and!.
  - intros t. apply get_own.
  - intros [->|H]; [apply get_empty|]. by apply get_absent, js_in_false.
  - apply Object_keys_spec.
Qed.

Lemma get_registered_or_not_found_witness :
  get "llama3" registry = Returns (VTemplate llama3) ∧
  get "unknown-model" registry
    = Throws (not_found "unknown-model" (Object_keys registry)).
Proof.
  split.
  - apply (proj1 (get_registered_or_not_found "llama3" registry) llama3).
    + discriminate.
    + vm_compute. reflexivity.
  - apply (proj1 (proj2 (get_registered_or_not_found "unknown-model" registry))).
    right. split; vm_compute; reflexivity.
Defined.

(** C2 as stated fails on the empty name: after [register("", llama3)] the
    empty string is a registered key (it is listed in [validModels]), yet
    [get("")] throws instead of returning the registered template. *)
Lemma get_registered_empty_name_throws :
  own registry_with_empty_name !! "" = Some llama3 ∧
  "" ∈ Object_keys registry_with_empty_name ∧
  get "" registry_with_empty_name
    = Throws (not_found "" (Object_keys registry_with_empty_name)) ∧
  get "" registry_with_empty_name ≠ Returns (VTemplate llama3).
Proof.
  assert (H : own registry_with_empty_name !! "" = Some llama3)
    by (vm_compute; reflexivity).
  split_and!; [done| |done|done].
  apply Object_keys_spec. by eexists.
Qed.

(** C3: once [register(x, t)] has succeeded for a non-empty [x], [get(x)]
    returns [t]; registering [x] again without override throws the
    already-exists error; with [override = true] it succeeds and [get(x)]
    then returns the new template. *)
Theorem register_get_override (x : string) (t t2 : Template) (r r1 : Registry) :
  x ≠ "" →
  register x t false r = (Returns (), r1) →
  get x r1 = Returns (VTemplate t) ∧
  register x t2 false r1 = (Throws (already_exists x), r1) ∧
  ∃ r2, register x t2 true r1 = (Returns (), r2) ∧
        get x r2 = Returns (VTemplate t2).
Proof.
  intros Hx Hreg. unfold register in Hreg.
  destruct (js_in x r) eqn:Hin; simpl in Hreg; [discriminate|].
  injection Hreg as <-. rewrite js_write_fresh by done.
  set (r1 := {| own := <[x:=t]> (own r); proto := proto r |}).
  assert (Hown : own r1 !! x = Some t) by apply lookup_insert_eq.
  split_and!.
  - by apply get_own.
  - apply register_throws, js_in_own. by eexists.
  - eexists. split.
    + apply register_assigns. by rewrite andb_false_r.
    + rewrite js_write_own by eauto. apply get_own; [done|].
      apply lookup_insert_eq.
Qed.

Lemma register_get_override_witness :
  ∃ r1, register "x" llama3 false registry = (Returns (), r1) ∧
        get "x" r1 = Returns (VTemplate llama3) ∧
        register "x" qwen2 false r1 = (Throws (already_exists "x"), r1) ∧
        ∃ r2, register "x" qwen2 true r1 = (Returns (), r2) ∧
              get "x" r2 = Returns (VTemplate qwen2).
Proof.
  eexists. split; [vm_compute; reflexivity|].
  apply (register_get_override "x" llama3 qwen2 registry).
  - discriminate.
  - vm_compute. reflexivity.
Defined.

(** C4, at the input where the code departs from it: on the initial
    registry [has("toString")] is true although ["toString"] is non-empty
    and not a key of the registry (neither built in nor registered). *)
Theorem has_inherited_name :
  has "toString" registry = true ∧
  ("toString" ∉ Object_keys registry) ∧
  own registry !! "toString" = None.
Proof.
  assert (Hown : own registry !! "toString" = None) by (by vm_compute).
  split_and!; [by vm_compute| |done].
  rewrite Object_keys_spec, Hown. by intros [? ?].
Qed.

(** C5: each built-in name is known to [has], and [get] returns for it a
    template whose list of stop sequences is not empty; the built-in names
    are the three keys of the initial registry. *)
Theorem builtin_templates :
  Object_keys registry ≡ₚ ["llama3.1"; "llama3"; "qwen2"] ∧
  Forall (λ name,
            has name registry = true ∧
            ∃ t, get name registry = Returns (VTemplate t) ∧
                 stop_sequence (parameters t) ≠ [])
         ["llama3.1"; "llama3"; "qwen2"].
Proof.
  split.
  - assert (Object_keys registry = ["qwen2"; "llama3.1"; "llama3"]) as ->
      by (by vm_compute).
    by rewrite (Permutation_swap "llama3.1" "qwen2"),
               (Permutation_swap "llama3" "qwen2").
  - repeat apply Forall_cons_2; [..|apply Forall_nil_2];
      (split; [by vm_compute|]).
    + exists llama31. split; [by vm_compute|done].
    + exists llama3. split; [by vm_compute|done].
    + exists qwen2. split; [by vm_compute|done].
Qed.

(** C9: registering a name that is already a registered key, without
    override, throws the already-exists error and hands back the registry
    it was given; every later [get] and [has] answers as before. *)
Theorem register_failure_atomic (m : string) (t : Template) (r : Registry) :
  is_Some (own r !! m) →
  register m t false r = (Throws (already_exists m), r) ∧
  ∀ m', get m' (register m t false r).2 = get m' r ∧
        has m' (register m t false r).2 = has m' r.
Proof.
  intros Hown.
  assert (H : register m t false r = (Throws (already_exists m), r))
    by by apply register_throws, js_in_own.
  split; [done|]. intros m'. by rewrite H.
Qed.

Lemma register_failure_atomic_witness :
  register "llama3" qwen2 false registry
    = (Throws (already_exists "llama3"), registry) ∧
  get "llama3" (register "llama3" qwen2 false registry).2
    = Returns (VTemplate llama3).
Proof.
  assert (Hown : is_Some (own registry !! "llama3"))
    by (exists llama3; vm_compute; reflexivity).
  destruct (register_failure_atomic "llama3" qwen2 registry Hown) as [H1 H2].
  split; [exact H1|].
  rewrite (proj1 (H2 "llama3")). vm_compute. reflexivity.
Defined.

(** C10: while the empty string is not a key, [register("", t)] succeeds
    and stores [t] under it, but [has("")] stays false and [get("")] still
    throws the not-found error (listing the empty name among the valid
    models); and as [get("")] throws on every registry, no later call can
    retrieve the entry. *)
Theorem empty_name_registered_but_hidden (t : Template) (r : Registry) :
  own r !! "" = None →
  (∃ r', register "" t false r = (Returns (), r') ∧
         own r' !! "" = Some t ∧
         "" ∈ Object_keys r' ∧
         has "" r' = false ∧
         get "" r' = Throws (not_found "" (Object_keys r'))) ∧
  (∀ r'', has "" r'' = false ∧
          get "" r'' = Throws (not_found "" (Object_keys r''))).
Proof.
  intros Hown. split; [|done].
  assert (Hin : js_in "" r = false).
  { apply js_in_false. split; [done|]. apply inherited_empty. }
  eexists. split; [|split_and!].
  - apply register_assigns. by rewrite Hin.
  - rewrite js_write_fresh by done. apply lookup_insert_eq.
  - rewrite js_write_fresh by done. apply Object_keys_spec.
    exists t. apply lookup_insert_eq.
  - done.
  - done.
Qed.

Lemma empty_name_registered_but_hidden_witness :
  ∃ r', register "" llama3 false registry = (Returns (), r') ∧
        own r' !! "" = Some llama3 ∧
        "" ∈ Object_keys r' ∧
        has "" r' = false ∧
        get "" r' = Throws (not_found "" (Object_keys r')).
Proof.
  apply (empty_name_registered_but_hidden llama3 registry).
  vm_compute. reflexivity.
Defined.

(** ** Instrumentation flags *)

Section split_join.
Variable sep : ascii.

Lemma split_nonempty s : split sep s ≠ [].
Proof.
  destruct s as [|c s]; simpl; [done|].
  destruct (Ascii.eqb c sep); [done|]. by destruct (split sep s).
Qed.

(** Joining the pieces with the separator gives the string back. *)
Lemma join_split s : join (String sep "") (split sep s) = s.
Proof.
  induction s as [|c s IH]; simpl; [done|].
  destruct (Ascii.eqb_spec c sep) as [->|Hne].
  - pose proof (split_nonempty s) as Hs.
    destruct (split sep s) as [|p ps] eqn:E; [done|]. simpl in *.
    by rewrite IH.
  - destruct (split sep s) as [|p ps] eqn:E; [by apply split_nonempty in E|].
    destruct ps as [|p' ps]; simpl in *; by rewrite <-IH.
Qed.

(** No piece contains the separator. *)
Lemma split_separator_free s : Forall (λ piece, ¬ occurs sep piece) (split sep s).
Proof.
  unfold occurs. induction s as [|c s IH]; simpl.
  - apply Forall_cons_2; [|done]. simpl. apply not_elem_of_nil.
  - destruct (Ascii.eqb_spec c sep) as [->|Hne].
    + apply Forall_cons_2; [|done]. simpl. apply not_elem_of_nil.
    + destruct (split sep s) as [|p ps] eqn:E; [by apply split_nonempty in E|].
      apply Forall_cons in IH as [Hp Hps]. apply Forall_cons_2; [|done].
      simpl. rewrite not_elem_of_cons. split; [congruence|done].
Qed.
End split_join.

(** C8: the ignored keys are the non-empty pieces of the variable's value
    cut at the commas (joining all the pieces with commas gives the value
    back, and no piece contains a comma); an unset variable gives the empty
    list and the value ["a,,b"] gives [["a"; "b"]]. *)
Theorem ignored_keys_split (env : gmap string string) :
  let key := "BEE_FRAMEWORK_INSTRUMENTATION_IGNORED_KEYS" in
  (env !! key = None → INSTRUMENTATION_IGNORED_KEYS env = []) ∧
  (env !! key = Some "a,,b" → INSTRUMENTATION_IGNORED_KEYS env = ["a"; "b"]) ∧
  (∀ v, env !! key = Some v →
        INSTRUMENTATION_IGNORED_KEYS env
          = filter (λ item, item ≠ "") (split ","%char v) ∧
        join "," (split ","%char v) = v ∧
        Forall (λ piece, ¬ occurs ","%char piece) (split ","%char v)) ∧
  ("" ∉ INSTRUMENTATION_IGNORED_KEYS env).
Proof.
  unfold INSTRUMENTATION_IGNORED_KEYS, parseEnv. split_and!.
  - by intros ->.
  - by intros ->.
  - intros v ->. split_and!.
    + simpl. apply list_filter_iff. intros [|c s]; simpl; [|split; [done|lia]].
      split; [lia|done].
    + apply join_split.
    + apply split_separator_free.
  - rewrite list_elem_of_filter. simpl. lia.
Qed.

Lemma ignored_keys_split_witness :
  INSTRUMENTATION_IGNORED_KEYS ∅ = [] ∧
  INSTRUMENTATION_IGNORED_KEYS (env_with_ignored_keys "a,,b") = ["a"; "b"].
Proof.
  split.
  - apply (proj1 (ignored_keys_split ∅)). reflexivity.
  - apply (proj1 (proj2 (ignored_keys_split (env_with_ignored_keys "a,,b")))).
    vm_compute. reflexivity.
Defined.

(** ** Rendering *)

(** C7: the llama3 template turns a system, a user and an assistant message
    into one string: each text between the header of its role and the
    end-of-turn marker, in the order of the messages, followed by an
    assistant header that is left open (nothing comes after its line
    break). *)
Theorem llama3_renders_conversation (s u a : string) :
  messagesToPrompt llama3 (template llama3)
    [ {| role := "system"; text := s |};
      {| role := "user"; text := u |};
      {| role := "assistant"; text := a |} ]
  = Some ("<|begin_of_text|><|start_header_id|>system<|end_header_id|>"
            +:+ nl +:+ nl +:+ s +:+ "<|eot_id|>"
          +:+ "<|start_header_id|>user<|end_header_id|>"
            +:+ nl +:+ nl +:+ u +:+ "<|eot_id|>"
          +:+ "<|start_header_id|>assistant<|end_header_id|>"
            +:+ nl +:+ nl +:+ a +:+ "<|eot_id|>"
          +:+ "<|start_header_id|>assistant<|end_header_id|>" +:+ nl).
Proof. vm_compute. reflexivity. Qed.

(** ** Grouping by role *)

Section grouping.
Variable rolesOverride : gmap string (option string).

Lemma roles_of_lookup b :
  roles_of rolesOverride !! b
  = match rolesOverride !! b with
    | Some o => o
    | None => default_roles !! b
    end.
Proof.
  unfold roles_of. rewrite lookup_omap, lookup_union, lookup_fmap.
  destruct (rolesOverride !! b) as [o|]; simpl.
  - by destruct (default_roles !! b), o.
  - by destruct (default_roles !! b).
Qed.

Lemma buckets_lookup (rs : gmap string string) m b :
  buckets rs m !! b
  = (λ r, if decide (role m = r) then [text m] else []) <$> rs !! b.
Proof. unfold buckets. by rewrite lookup_fmap. Qed.

Lemma recognized_spec (rs : gmap string string) r :
  recognized rs r = true ↔ ∃ b, rs !! b = Some r.
Proof.
  unfold recognized. rewrite bool_decide_eq_true, list_elem_of_fmap. split.
  - intros [[b r'] [-> Hin]]. exists b. by apply elem_of_map_to_list.
  - intros [b Hb]. exists (b, r). split; [done|]. by apply elem_of_map_to_list.
Qed.

Lemma bucket_holds_text (rs : gmap string string) m b :
  text m ∈ default [] (buckets rs m !! b) ↔ rs !! b = Some (role m).
Proof.
  rewrite buckets_lookup. destruct (rs !! b) as [r|]; simpl.
  - case_decide as H.
    + subst. split; [done|]. intros _. apply list_elem_of_here.
    + split; [by intros ?%elem_of_nil|]. intros [= ->]. done.
  - split; [by intros ?%elem_of_nil|done].
Qed.

Lemma unrecognized_buckets_empty (rs : gmap string string) m b :
  recognized rs (role m) = false → default [] (buckets rs m !! b) = [].
Proof.
  intros Hrec. rewrite buckets_lookup.
  destruct (rs !! b) as [r|] eqn:Hb; simpl; [|done].
  case_decide as H; [|done]. subst.
  assert (recognized rs (role m) = true) by (apply recognized_spec; eauto).
  congruence.
Qed.
End grouping.

Section rendering.
Import Mustache.
Variable rs : gmap string string.
Implicit Types (m : BaseMessage) (ms : list BaseMessage).

Lemma lookup_in_message_view ms n :
  n ≠ "messages" → messages_view rs ms !! n = None.
Proof. intros Hn. unfold messages_view. by apply lookup_singleton_ne. Qed.

(** Inside a role section nothing depends on the other messages. *)
Lemma render_plain_local x bk ms ms' inner :
  forallb plain inner = true →
  flat_map (render_token [VStr x; VObj bk; VObj (messages_view rs ms)]) inner
  = flat_map (render_token [VStr x; VObj bk; VObj (messages_view rs ms')]) inner.
Proof.
  induction inner as [|t inner IH]; [done|].
  intros [Ht Hinner]%andb_true_iff. cbn [flat_map]. rewrite IH by done.
  f_equal. destruct t as [s|n|n body]; [done| |done].
  cbn [plain] in Ht. apply negb_true_iff, String.eqb_neq in Ht.
  cbn [render_token lookup]. destruct (bk !! n); [done|].
  by rewrite !lookup_in_message_view.
Qed.

Lemma bucket_value_lookup m b :
  match bucket_value (buckets rs m) with
  | VObj fields =>
      fields !! b
      = (λ r, VList (map VStr (if decide (role m = r) then [text m] else [])))
          <$> rs !! b
  | _ => False
  end.
Proof.
  unfold bucket_value, buckets. rewrite !lookup_fmap.
  by destruct (rs !! b).
Qed.

Lemma render_bucket_section m ms ms' t :
  bucket_section rs t = true →
  render_token [bucket_value (buckets rs m); VObj (messages_view rs ms)] t
  = render_token [bucket_value (buckets rs m); VObj (messages_view rs ms')] t
  ∧ (recognized rs (role m) = false →
     render_token [bucket_value (buckets rs m); VObj (messages_view rs ms)] t = []).
Proof.
  destruct t as [s|n|b inner]; [done|done|].
  cbn [bucket_section]. intros [[r Hb]%bool_decide_eq_true Hinner]%andb_true_iff.
  pose proof (bucket_value_lookup m b) as Hl. rewrite Hb in Hl.
  unfold bucket_value in *. cbn [render_token lookup]. rewrite Hl. cbn [fmap option_fmap option_map].
  case_decide as Hr.
  - split.
    + cbn [map flat_map]. f_equal. by apply render_plain_local.
    + intros Hrec. subst r.
      assert (recognized rs (role m) = true) by (apply recognized_spec; eauto).
      congruence.
  - done.
Qed.
End rendering.

Section chat_templates.
Import Mustache.
Variable rs : gmap string string.
Implicit Types (m : BaseMessage) (ms : list BaseMessage).

Lemma render_message_local body ms ms' m :
  forallb (bucket_section rs) body = true →
  render_message rs body ms m = render_message rs body ms' m.
Proof.
  unfold render_message. induction body as [|t body IH]; [done|].
  intros [Ht Hbody]%andb_true_iff. cbn [flat_map]. rewrite IH by done.
  f_equal. by apply render_bucket_section.
Qed.

Lemma render_message_unrecognized body ms m :
  forallb (bucket_section rs) body = true →
  recognized rs (role m) = false →
  render_message rs body ms m = [].
Proof.
  unfold render_message. intros Hbody Hrec.
  induction body as [|t body IH]; [done|].
  apply andb_true_iff in Hbody as [Ht Hbody]. cbn [flat_map].
  rewrite IH by done.
  by rewrite (proj2 (render_bucket_section rs m ms ms t Ht) Hrec).
Qed.

Lemma render_chat_shaped ts ms :
  chat_shaped rs ts = true →
  ∃ body closing,
    ts = [Section "messages" body; Text closing] ∧
    forallb (bucket_section rs) body = true ∧
    render_tokens [VObj (messages_view rs ms)] ts
    = (flat_map (render_message rs body ms) ms ++ [closing])%list.
Proof.
  destruct ts as [|[|? |n body] [|[closing| |] [|]]]; try done.
  cbn [chat_shaped]. intros [->%String.eqb_eq Hbody]%andb_true_iff.
  exists body, closing. split_and!; [done..|].
  unfold render_tokens. cbn [flat_map render_token lookup].
  unfold messages_view at 1. rewrite lookup_singleton_eq.
  rewrite app_nil_r. f_equal. unfold group. rewrite !flat_map_concat_map, !map_map.
  done.
Qed.

Lemma flat_map_local {A B} (f g : A → list B) l :
  (∀ x, f x = g x) → flat_map f l = flat_map g l.
Proof. intros H. induction l; simpl; by rewrite ?H, ?IHl. Qed.

End chat_templates.

(** A message whose role no bucket stands for can be taken out of the
    input of a chat-shaped template without changing the output. *)
Lemma unrecognized_message_omitted ov tpl ts ms1 m ms2 :
  Mustache.parse (template_source tpl) = Some ts →
  chat_shaped (roles_of ov) ts = true →
  recognized (roles_of ov) (role m) = false →
  messagesToPromptFactory ov tpl (ms1 ++ m :: ms2)
  = messagesToPromptFactory ov tpl (ms1 ++ ms2).
Proof.
  intros Hparse Hshape Hrec.
  unfold messagesToPromptFactory, PromptTemplate_render, Mustache.render.
  rewrite Hparse. cbn [mbind option_bind]. do 2 f_equal.
  destruct (render_chat_shaped (roles_of ov) ts (ms1 ++ m :: ms2) Hshape)
    as (body & closing & -> & Hbody & ->).
  destruct (render_chat_shaped (roles_of ov) _ (ms1 ++ ms2) Hshape)
    as (body' & closing' & [= <- <-] & _ & ->).
  f_equal. rewrite !flat_map_app. cbn [flat_map].
  rewrite (render_message_unrecognized _ _ _ _ Hbody Hrec). cbn [app].
  f_equal; apply flat_map_local; intros x; by apply render_message_local.
Qed.

(** C6, amended: the grouping keeps one entry per message, in the order of
    the messages; a message's text is in a bucket exactly when the role the
    mapping gives for that bucket is the message's role, and a bucket holds
    nothing else; so with a mapping that sends every bucket name to itself
    (as the built-in ones do) the text is only in the bucket named by the
    role; a message whose role no bucket stands for leaves every bucket
    empty, and the three built-in templates render the input with such a
    message exactly as they render it without. *)
Theorem grouping_by_mapped_role (rolesOverride : gmap string (option string))
    (messages : list BaseMessage) :
  let roles := roles_of rolesOverride in
  (∀ b, roles !! b = match rolesOverride !! b with
                     | Some o => o
                     | None => default_roles !! b
                     end) ∧
  (length (group roles messages) = length messages ∧
   ∀ i, group roles messages !! i = buckets roles <$> messages !! i) ∧
  (∀ m b, text m ∈ default [] (buckets roles m !! b)
          ↔ roles !! b = Some (role m)) ∧
  (∀ m b, default [] (buckets roles m !! b) = [] ∨
          default [] (buckets roles m !! b) = [text m]) ∧
  ((∀ b r, roles !! b = Some r → r = b) →
   ∀ m b, text m ∈ default [] (buckets roles m !! b) → b = role m) ∧
  (∀ r, recognized roles r = true ↔ ∃ b, roles !! b = Some r) ∧
  (∀ m, recognized roles (role m) = false →
        ∀ b, default [] (buckets roles m !! b) = []) ∧
  (∀ ms1 m ms2,
     (recognized (roles_of {[ "ipython" := Some "ipython" ]}) (role m) = false →
      messagesToPrompt llama31 (template llama31) (ms1 ++ m :: ms2)
      = messagesToPrompt llama31 (template llama31) (ms1 ++ ms2)) ∧
     (recognized (roles_of ∅) (role m) = false →
      messagesToPrompt llama3 (template llama3) (ms1 ++ m :: ms2)
      = messagesToPrompt llama3 (template llama3) (ms1 ++ ms2) ∧
      messagesToPrompt qwen2 (template qwen2) (ms1 ++ m :: ms2)
      = messagesToPrompt qwen2 (template qwen2) (ms1 ++ ms2))).
Proof.
  intros roles. split_and!.
  - apply roles_of_lookup.
  - apply length_map.
  - intros i. apply list_lookup_fmap.
  - intros m b. apply bucket_holds_text.
  - intros m b. rewrite buckets_lookup. destruct (roles !! b); simpl; [|by left].
    case_decide; [by right|by left].
  - intros Hid m b Hin%bucket_holds_text. by apply Hid in Hin.
  - apply recognized_spec.
  - intros m Hrec b. by apply unrecognized_buckets_empty.
  - intros ms1 m ms2. split; [intros Hrec|intros Hrec; split].
    + eapply unrecognized_message_omitted; [by vm_compute|by vm_compute|done].
    + eapply unrecognized_message_omitted; [by vm_compute|by vm_compute|done].
    + eapply unrecognized_message_omitted; [by vm_compute|by vm_compute|done].
Qed.

Lemma grouping_by_mapped_role_witness :
  (∀ b, default [] (buckets (roles_of {[ "ipython" := Some "ipython" ]})
                      an_unknown_role_message !! b) = []) ∧
  messagesToPrompt llama3 (template llama3)
    ([ {| role := "user"; text := "hi" |} ] ++ an_unknown_role_message :: [])
  = messagesToPrompt llama3 (template llama3)
      ([ {| role := "user"; text := "hi" |} ] ++ []).
Proof.
  destruct (grouping_by_mapped_role {[ "ipython" := Some "ipython" ]}
              [an_unknown_role_message])
    as (_ & _ & _ & _ & _ & _ & Hempty & Hrender).
  split.
  - apply Hempty. vm_compute. reflexivity.
  - apply (proj2 (Hrender [ {| role := "user"; text := "hi" |} ]
                    an_unknown_role_message [])).
    vm_compute. reflexivity.
Defined.

(** C6 as stated fails for a mapping that is not the identity: with the
    override [{ ipython: "user" }] the text of a user message is also put
    in the bucket named [ipython], which is not the message's role. *)
Lemma bucket_name_differs_from_role :
  buckets (roles_of {[ "ipython" := Some "user" ]})
    {| role := "user"; text := "hi" |} !! "ipython" = Some ["hi"] ∧
  ¬ (∀ (ov : gmap string (option string)) (m : BaseMessage) (b : string),
       text m ∈ default [] (buckets (roles_of ov) m !! b) → b = role m).
Proof.
  assert (H : buckets (roles_of {[ "ipython" := Some "user" ]})
                {| role := "user"; text := "hi" |} !! "ipython" = Some ["hi"])
    by (vm_compute; reflexivity).
  split; [done|]. intros Hclaim.
  specialize (Hclaim {[ "ipython" := Some "user" ]}
                {| role := "user"; text := "hi" |} "ipython").
  rewrite H in Hclaim. simpl in Hclaim.
  discriminate Hclaim. apply list_elem_of_here.
Qed.

(** * Further properties *)

(** ** The registry across calls *)

Section registry_calls.
Implicit Types (r : Registry) (m model : string) (t : Template).

Lemma register_state model t override r :
  (register model t override r).2 = r ∨
  (register model t override r = (Returns (), js_write r model t)).
Proof. unfold register. destruct (js_in model r && negb override); eauto. Qed.

Lemma js_write_cases r k t :
  (k ≠ "__proto__" ∨ is_Some (own r !! k)) ∧
    js_write r k t = {| own := <[k := t]> (own r); proto := proto r |}
  ∨ k = "__proto__" ∧ own r !! k = None ∧
    js_write r k t = {| own := own r; proto := Some t |}.
Proof.
  unfold js_write. destruct (own r !! k) as [t'|] eqn:Hown.
  - left. split; [right; by eexists|done].
  - destruct (String.eqb_spec k "__proto__") as [->|Hne]; [by right|].
    left. split; [by left|done].
Qed.

Lemma inherited_same_proto r r' k :
  proto r' = proto r → inherited r' k = inherited r k.
Proof. unfold inherited. by intros ->. Qed.

End registry_calls.

(** X1: whatever name a [register] call accepted, empty name apart, [has]
    knows it afterwards and [get] returns the template just stored; this
    holds with and without override and also for the names the registry
    object inherits. *)
Theorem register_then_get (m : string) (t : Template) (override : bool)
    (r r' : Registry) :
  m ≠ "" →
  register m t override r = (Returns (), r') →
  has m r' = true ∧ get m r' = Returns (VTemplate t).
Proof.
  intros Hm Hreg. unfold register in Hreg.
  destruct (js_in m r && negb override); [discriminate|].
  injection Hreg as <-.
  destruct (js_write_cases r m t) as [[_ ->]|(-> & Hown & ->)].
  - assert (Hown : own {| own := <[m:=t]> (own r); proto := proto r |} !! m
                   = Some t) by apply lookup_insert_eq.
    pose proof (get_own m t _ Hm Hown) as Hget. split; [|done].
    unfold get in Hget. by destruct (has m _).
  - set (r' := {| own := own r; proto := Some t |}).
    assert (Hhas : has "__proto__" r' = true).
    { unfold has, js_in. by rewrite inherited_proto, orb_true_r. }
    split; [done|]. unfold get. rewrite Hhas. simpl.
    unfold js_read. simpl. by rewrite Hown.
Qed.

Lemma register_then_get_witness :
  has "toString" (register "toString" qwen2 true registry).2 = true ∧
  get "toString" (register "toString" qwen2 true registry).2
    = Returns (VTemplate qwen2).
Proof.
  apply (register_then_get "toString" qwen2 true registry).
  - discriminate.
  - reflexivity.
Defined.

(** X2: a [register] call for a name other than [__proto__] touches that
    name only: for every other name [has] answers as before, and [get]
    returns a value exactly when it did before, the same one. *)
Theorem register_other_names (m m' : string) (t : Template) (override : bool)
    (r : Registry) :
  m ≠ "__proto__" →
  m' ≠ m →
  has m' (register m t override r).2 = has m' r ∧
  ∀ v, get m' (register m t override r).2 = Returns v ↔ get m' r = Returns v.
Proof.
  intros Hm Hne.
  destruct (register_state m t override r) as [->| ->]; [done|]. simpl.
  destruct (js_write_cases r m t) as [[_ ->]|(-> & _)]; [|done].
  set (r' := {| own := <[m:=t]> (own r); proto := proto r |}).
  assert (Hown : own r' !! m' = own r !! m') by by apply lookup_insert_ne.
  assert (Hin : js_in m' r' = js_in m' r).
  { unfold js_in. by rewrite Hown, (inherited_same_proto r r'). }
  assert (Hhas : has m' r' = has m' r) by (unfold has; by rewrite Hin).
  split; [done|]. intros v. unfold get. rewrite Hhas.
  destruct (has m' r); simpl; [|done].
  unfold js_read. by rewrite Hown.
Qed.

Lemma register_other_names_witness :
  has "llama3" (register "mine" qwen2 false registry).2 = has "llama3" registry ∧
  (get "llama3" (register "mine" qwen2 false registry).2
     = Returns (VTemplate llama3)
   ↔ get "llama3" registry = Returns (VTemplate llama3)).
Proof.
  assert (H1 : "mine" ≠ "__proto__") by discriminate.
  assert (H2 : "llama3" ≠ "mine") by discriminate.
  destruct (register_other_names "mine" "llama3" qwen2 false registry H1 H2)
    as [Hhas Hget].
  split; [exact Hhas|apply Hget].
Defined.

(** X3: the last write wins: registering a name with override after any
    earlier [register] call for the same name, whether that one succeeded
    or threw, leaves the registry exactly as the overriding call alone. *)
Theorem register_override_last_wins (m : string) (t1 t2 : Template)
    (override : bool) (r : Registry) :
  register m t2 true (register m t1 override r).2 = register m t2 true r.
Proof.
  destruct (register_state m t1 override r) as [->| ->]; [done|]. simpl.
  unfold register. rewrite !andb_false_r. f_equal.
  unfold js_write at 2 3.
  destruct (own r !! m) as [t'|] eqn:Hown; simpl.
  - unfold js_write. simpl. rewrite lookup_insert_eq. by rewrite insert_insert_eq.
  - destruct (String.eqb_spec m "__proto__") as [->|Hne]; simpl.
    + unfold js_write. simpl. by rewrite Hown.
    + unfold js_write. simpl. rewrite lookup_insert_eq. by rewrite insert_insert_eq.
Qed.

(** X4: [__proto__] is never registered as a model.  While it is not an
    own key, [register("__proto__", t)] without override always throws;
    with override it succeeds but adds no key: it makes [t] the prototype
    of the registry, after which [get("__proto__")] returns [t] and [has]
    answers true for the field names of a template. *)
Theorem register_proto_replaces_prototype (t : Template) (r : Registry) :
  own r !! "__proto__" = None →
  register "__proto__" t false r = (Throws (already_exists "__proto__"), r) ∧
  ∃ r', register "__proto__" t true r = (Returns (), r') ∧
        own r' = own r ∧ Object_keys r' = Object_keys r ∧
        proto r' = Some t ∧
        get "__proto__" r' = Returns (VTemplate t) ∧
        Forall (λ field, has field r' = true)
          ["template"; "messagesToPrompt"; "parameters"].
Proof.
  intros Hown. split.
  - apply register_throws. unfold js_in. by rewrite inherited_proto, orb_true_r.
  - exists {| own := own r; proto := Some t |}. split_and!; try done.
    + unfold register. rewrite andb_false_r. unfold js_write. by rewrite Hown.
    + apply (register_then_get "__proto__" t true r); [done|].
      unfold register. rewrite andb_false_r. unfold js_write. by rewrite Hown.
    + repeat apply Forall_cons_2; [..|apply Forall_nil_2];
        unfold has, js_in, inherited; simpl;
        by rewrite orb_true_r.
Qed.

Lemma register_proto_replaces_prototype_witness :
  register "__proto__" qwen2 false registry
    = (Throws (already_exists "__proto__"), registry) ∧
  ∃ r', register "__proto__" qwen2 true registry = (Returns (), r') ∧
        Object_keys r' = Object_keys registry ∧
        get "__proto__" r' = Returns (VTemplate qwen2).
Proof.
  assert (H : own registry !! "__proto__" = None) by (vm_compute; reflexivity).
  destruct (register_proto_replaces_prototype qwen2 registry H)
    as [Hthrow (r' & Hreg & _ & Hkeys & _ & Hget & _)].
  split; [exact Hthrow|]. exists r'. split_and!; assumption.
Defined.

Lemma keys_insert_fresh (o : gmap string Template) k t :
  o !! k = None → (map_to_list (<[k := t]> o)).*1 ≡ₚ k :: (map_to_list o).*1.
Proof. intros H. by rewrite map_to_list_insert. Qed.

Lemma keys_insert_present (o : gmap string Template) k t :
  is_Some (o !! k) → (map_to_list (<[k := t]> o)).*1 ≡ₚ (map_to_list o).*1.
Proof.
  intros [t' H]. rewrite <-(insert_delete_eq o k t).
  rewrite <-(insert_delete_id o k t') at 2 by done.
  rewrite !keys_insert_fresh by apply lookup_delete_eq. done.
Qed.

(** X5: what a successful [register] does to the key list reported in
    [validModels]: a name that was not a key (and is not [__proto__]) is
    added once, nothing else changes; overwriting a key changes no key. *)
Theorem register_keys (m : string) (t : Template) (override : bool)
    (r r' : Registry) :
  register m t override r = (Returns (), r') →
  (is_Some (own r !! m) → Object_keys r' ≡ₚ Object_keys r) ∧
  (own r !! m = None → m ≠ "__proto__" → Object_keys r' ≡ₚ m :: Object_keys r).
Proof.
  intros Hreg. unfold register in Hreg.
  destruct (js_in m r && negb override); [discriminate|].
  injection Hreg as <-. unfold Object_keys. split.
  - intros Hown. rewrite js_write_own by done. simpl.
    by apply keys_insert_present.
  - intros Hown Hne. unfold js_write. rewrite Hown.
    apply String.eqb_neq in Hne. rewrite Hne. simpl.
    by apply keys_insert_fresh.
Qed.

Lemma register_keys_witness :
  Object_keys (register "mine" qwen2 false registry).2
    ≡ₚ "mine" :: Object_keys registry.
Proof.
  apply (register_keys "mine" qwen2 false registry).
  - reflexivity.
  - reflexivity.
  - discriminate.
Defined.

Lemma register_false_keeps (m : string) (t : Template) (r : Registry) :
  own r ⊆ own (register m t false r).2 ∧ proto (register m t false r).2 = proto r.
Proof.
  unfold register. destruct (js_in m r) eqn:Hin; simpl; [done|].
  rewrite js_write_fresh by done. simpl. split; [|done].
  apply insert_subseteq. by apply js_in_false in Hin as [? _].
Qed.

(** X6: registration without override never replaces or removes anything:
    after any sequence of such calls every entry that was there is still
    there with the same template and [get] still returns it. *)
Theorem register_each_without_override_keeps
    (calls : list (string * Template * bool)) (r : Registry) :
  Forall (λ call, call.2 = false) calls →
  own r ⊆ own (register_each calls r) ∧
  proto (register_each calls r) = proto r ∧
  ∀ m t, m ≠ "" → own r !! m = Some t →
         get m (register_each calls r) = Returns (VTemplate t).
Proof.
  intros Hcalls.
  assert (H : own r ⊆ own (register_each calls r) ∧
              proto (register_each calls r) = proto r).
  { revert r. induction Hcalls as [|[[m t] o] calls Ho _ IH]; intros r; [done|].
    simpl in *. subst o.
    destruct (register_false_keeps m t r) as [Hsub Hproto].
    destruct (IH (register m t false r).2) as [Hsub' Hproto'].
    split; [by etrans|congruence]. }
  destruct H as [Hsub Hproto]. split_and!; [done..|].
  intros m t Hm Hown. apply get_own; [done|].
  by eapply lookup_weaken.
Qed.

Lemma register_each_without_override_keeps_witness :
  get "llama3"
    (register_each [("mine", qwen2, false); ("llama3", qwen2, false)] registry)
  = Returns (VTemplate llama3).
Proof.
  assert (Hcalls : Forall (λ call : string * Template * bool, call.2 = false)
                     [("mine", qwen2, false); ("llama3", qwen2, false)]).
  { repeat constructor. }
  destruct (register_each_without_override_keeps _ registry Hcalls)
    as (_ & _ & Hget).
  apply Hget; [discriminate|vm_compute; reflexivity].
Defined.

Lemma register_keeps_has (m m0 : string) (t : Template) (override : bool)
    (r : Registry) :
  has m r = true → has m (register m0 t override r).2 = true.
Proof.
  intros Hhas.
  destruct (register_state m0 t override r) as [->| ->]; [done|]. simpl.
  apply andb_true_iff in Hhas as [Hm Hin]. unfold has. rewrite Hm. simpl.
  unfold js_in in *. apply orb_true_iff in Hin as [Hown|Hinh];
    apply orb_true_iff.
  - left. apply bool_decide_eq_true in Hown. apply bool_decide_eq_true.
    destruct (js_write_cases r m0 t) as [[_ ->]|(_ & _ & ->)]; simpl; [|done].
    rewrite lookup_insert. case_decide; [by eexists|done].
  - right. unfold inherited in *.
    destruct (js_write_cases r m0 t) as [[_ ->]|(_ & _ & ->)]; simpl; [done|].
    destruct (proto r); [done|]. simpl in Hinh. by rewrite Hinh, orb_true_r.
Qed.

(** X7: nothing is ever removed: a name for which [has] is true stays so
    through any sequence of [register] calls, with or without override,
    successful or not; [get] on it keeps returning a value (never
    [undefined]). *)
Theorem register_each_keeps_has (calls : list (string * Template * bool))
    (m : string) (r : Registry) :
  has m r = true →
  has m (register_each calls r) = true ∧
  ∃ v, get m (register_each calls r) = Returns v ∧ v ≠ VUndefined.
Proof.
  intros Hhas.
  assert (H : has m (register_each calls r) = true).
  { revert r Hhas. induction calls as [|[[m0 t] o] calls IH]; intros r Hhas;
      [done|].
    simpl. apply IH. by apply register_keeps_has. }
  split; [done|]. pose proof (get_defined m (register_each calls r)) as Hdef.
  unfold get in *. rewrite H in *. simpl in *. eexists. split; [done|].
  congruence.
Qed.

Lemma register_each_keeps_has_witness :
  has "qwen2"
    (register_each [("qwen2", llama3, true); ("__proto__", llama3, true)]
       registry) = true.
Proof.
  apply (register_each_keeps_has _ "qwen2" registry).
  vm_compute. reflexivity.
Defined.

(** X8: [__proto__] never becomes a key: starting from a registry without
    it (such as the initial one), no sequence of [register] calls puts it
    among the own keys, so [validModels] never lists it. *)
Theorem register_each_never_stores_proto
    (calls : list (string * Template * bool)) (r : Registry) :
  own r !! "__proto__" = None →
  own (register_each calls r) !! "__proto__" = None ∧
  "__proto__" ∉ Object_keys (register_each calls r).
Proof.
  intros Hown.
  assert (H : own (register_each calls r) !! "__proto__" = None).
  { revert r Hown. induction calls as [|[[m t] o] calls IH]; intros r Hown;
      [done|].
    simpl. apply IH.
    destruct (register_state m t o r) as [->| ->]; [done|]. simpl.
    destruct (js_write_cases r m t) as [[Hm ->]|(_ & _ & ->)]; simpl; [|done].
    rewrite lookup_insert_ne; [done|]. intros ->.
    destruct Hm as [?|[? Hm]]; [done|]. congruence. }
  split; [done|]. rewrite Object_keys_spec, H. by intros [? ?].
Qed.

Lemma register_each_never_stores_proto_witness :
  "__proto__" ∉ Object_keys
    (register_each [("__proto__", qwen2, true); ("mine", qwen2, false)] registry).
Proof.
  apply (register_each_never_stores_proto _ registry).
  vm_compute. reflexivity.
Defined.

(** X9: which templates [get] can return: [get(m)] returns the template [t]
    exactly when [m] is a non-empty key registered with [t], or when [m]
    is [__proto__], not a key, and [t] has been made the prototype. *)
Theorem get_returns_template (m : string) (t : Template) (r : Registry) :
  get m r = Returns (VTemplate t)
  ↔ (m ≠ "" ∧ own r !! m = Some t)
    ∨ (m = "__proto__" ∧ own r !! m = None ∧ proto r = Some t).
Proof.
  split.
  - unfold get. destruct (has m r) eqn:Hhas; simpl; [|done].
    assert (Hm : m ≠ "") by (by intros ->).
    unfold js_read. destruct (own r !! m) as [t'|] eqn:Hown.
    { intros [= ->]. by left. }
    destruct (proto r) as [p|].
    + destruct (bool_decide (m ∈ Template_field_names)); [done|].
      destruct (String.eqb_spec m "__proto__") as [->|Hne].
      * intros [= ->]. by right.
      * by destruct (bool_decide (m ∈ Object_prototype_names)).
    + destruct (String.eqb m "__proto__"); [done|].
      by destruct (bool_decide (m ∈ Object_prototype_names)).
  - intros [[Hm Hown]|(-> & Hown & Hproto)]; [by apply get_own|].
    unfold get, has, js_in. rewrite inherited_proto, orb_true_r. simpl.
    unfold js_read. by rewrite Hown, Hproto.
Qed.

(** ** More on grouping *)

#[local] Set Warnings "-clear-no-such-hyp".

Lemma default_roles_lookup b r :
  default_roles !! b = Some r ↔ r = b ∧ b ∈ ["system"; "user"; "assistant"].
Proof.
  unfold default_roles. rewrite !lookup_insert, lookup_empty.
  rewrite !elem_of_cons, elem_of_nil.
  repeat case_decide; subst; naive_solver.
Qed.

(** X10: the role mappings of the built-in templates send every bucket
    name to itself, so for them a message's text is in the bucket [b]
    exactly when [b] is the message's role and that role is one of
    system, user, assistant (and ipython for llama3.1). *)
Theorem builtin_buckets_by_role (m : BaseMessage) (b : string) :
  (text m ∈ default [] (buckets (roles_of ∅) m !! b)
   ↔ b = role m ∧ b ∈ ["system"; "user"; "assistant"]) ∧
  (text m ∈ default [] (buckets (roles_of {[ "ipython" := Some "ipython" ]}) m !! b)
   ↔ b = role m ∧ b ∈ ["system"; "user"; "assistant"; "ipython"]).
Proof.
  rewrite !bucket_holds_text, !roles_of_lookup. split.
  - rewrite lookup_empty, default_roles_lookup. naive_solver.
  - destruct (decide (b = "ipython")) as [->|Hb].
    + rewrite lookup_singleton_eq. split.
      * intros [= <-]. split; [done|]. do 3 apply list_elem_of_further.
        apply list_elem_of_here.
      * by intros [<- _].
    + rewrite lookup_singleton_ne by done.
      rewrite default_roles_lookup.
      change ["system"; "user"; "assistant"; "ipython"]
        with (["system"; "user"; "assistant"] ++ ["ipython"])%list.
      rewrite elem_of_app, list_elem_of_singleton.
      split; [intros [? ?]; auto|intros [? [?|?]]; [done|congruence]].
Qed.

(** X11: every entry of the grouping has exactly the bucket names of the
    role mapping, whatever the role of its message; and when no two
    bucket names stand for the same role, a message's text is in at most
    one bucket. *)
Theorem buckets_names_and_uniqueness (roles : gmap string string)
    (m : BaseMessage) :
  dom (buckets roles m) = dom roles ∧
  ((∀ b1 b2 r, roles !! b1 = Some r → roles !! b2 = Some r → b1 = b2) →
   ∀ b1 b2, b1 ≠ b2 →
            text m ∈ default [] (buckets roles m !! b1) →
            text m ∉ default [] (buckets roles m !! b2)).
Proof.
  split.
  - unfold buckets. apply dom_fmap_L.
  - intros Hinj b1 b2 Hne H1%bucket_holds_text H2%bucket_holds_text. eauto.
Qed.

Lemma buckets_names_and_uniqueness_witness :
  "hi" ∉ default [] (buckets default_roles {| role := "user"; text := "hi" |}
                       !! "system").
Proof.
  apply (proj2 (buckets_names_and_uniqueness default_roles
                  {| role := "user"; text := "hi" |})
           (λ b1 b2 r H1 H2,
              eq_trans (eq_sym (proj1 (proj1 (default_roles_lookup b1 r) H1)))
                       (proj1 (proj1 (default_roles_lookup b2 r) H2)))
           "user" "system").
  - discriminate.
  - vm_compute. apply list_elem_of_here.
Defined.

(** ** More on the ignored keys *)

Section split_more.
Variable sep : ascii.

Lemma split_free s : ¬ occurs sep s → split sep s = [s].
Proof.
  unfold occurs. induction s as [|c s IH]; simpl; [done|].
  rewrite not_elem_of_cons. intros [Hc Hs].
  destruct (Ascii.eqb_spec c sep) as [->|_]; [done|]. by rewrite IH.
Qed.

Lemma split_app a b :
  split sep (a +:+ String sep b) = (split sep a ++ split sep b)%list.
Proof.
  induction a as [|c a IH]; simpl.
  - by rewrite Ascii.eqb_refl.
  - rewrite IH. destruct (Ascii.eqb c sep); [done|].
    destruct (split sep a) as [|p ps] eqn:E; [by apply split_nonempty in E|done].
Qed.

(** Cutting a list of separator-free pieces joined by the separator gives
    the pieces back. *)
Lemma split_join l :
  l ≠ [] → Forall (λ piece, ¬ occurs sep piece) l →
  split sep (join (String sep "") l) = l.
Proof.
  intros Hl Hfree. induction Hfree as [|x l Hx Hfree IH]; [done|].
  destruct l as [|y l]; simpl.
  - by apply split_free.
  - change (split sep (x +:+ String sep (join (String sep "") (y :: l)))
            = x :: y :: l).
    rewrite split_app, IH by done. by rewrite split_free.
Qed.
End split_more.

Lemma ignored_keys_of_value v :
  INSTRUMENTATION_IGNORED_KEYS (env_with_ignored_keys v)
  = filter (λ item, 0 < String.length item) (split ","%char v).
Proof.
  unfold INSTRUMENTATION_IGNORED_KEYS, parseEnv, env_with_ignored_keys.
  by rewrite lookup_singleton_eq.
Qed.

(** X12: the ignored keys follow the commas of the value: the keys of
    [a,b] are the keys of [a] followed by the keys of [b], and a non-empty
    value without a comma is one key, kept as it is (blanks included). *)
Theorem ignored_keys_concatenate (a b v : string) :
  INSTRUMENTATION_IGNORED_KEYS (env_with_ignored_keys (a +:+ "," +:+ b))
  = (INSTRUMENTATION_IGNORED_KEYS (env_with_ignored_keys a)
     ++ INSTRUMENTATION_IGNORED_KEYS (env_with_ignored_keys b))%list ∧
  (v ≠ "" → ¬ occurs ","%char v →
   INSTRUMENTATION_IGNORED_KEYS (env_with_ignored_keys v) = [v]).
Proof.
  rewrite !ignored_keys_of_value. split.
  - change (a +:+ "," +:+ b) with (a +:+ String ","%char b).
    by rewrite split_app, filter_app.
  - intros Hv Hfree. rewrite split_free by done.
    destruct v; [done|]. rewrite filter_cons_True by (simpl; lia). done.
Qed.

Lemma ignored_keys_concatenate_witness :
  INSTRUMENTATION_IGNORED_KEYS (env_with_ignored_keys " a b ") = [" a b "].
Proof.
  apply (proj2 (ignored_keys_concatenate "" "" " a b ")).
  - discriminate.
  - unfold occurs. vm_compute. intros H.
    repeat (apply elem_of_cons in H as [H|H]; [discriminate H|]).
    by apply elem_of_nil in H.
Defined.

(** X13: the ignored keys are a normal form: writing them back as a
    comma-separated value and reading that value gives the same keys. *)
Theorem ignored_keys_roundtrip (v : string) :
  INSTRUMENTATION_IGNORED_KEYS
    (env_with_ignored_keys
       (join "," (INSTRUMENTATION_IGNORED_KEYS (env_with_ignored_keys v))))
  = INSTRUMENTATION_IGNORED_KEYS (env_with_ignored_keys v).
Proof.
  rewrite (ignored_keys_of_value (join _ _)).
  set (keys := INSTRUMENTATION_IGNORED_KEYS (env_with_ignored_keys v)).
  assert (Hfree : Forall (λ piece, ¬ occurs ","%char piece) keys).
  { unfold keys. rewrite ignored_keys_of_value. apply Forall_forall.
    intros x [_ Hx]%list_elem_of_filter.
    by apply (proj1 (Forall_forall _ _) (split_separator_free ","%char v)). }
  assert (Hnonempty : Forall (λ item, 0 < String.length item) keys).
  { unfold keys. rewrite ignored_keys_of_value. apply Forall_forall.
    by intros x [? _]%list_elem_of_filter. }
  destruct (decide (keys = [])) as [->|Hne]; [done|].
  rewrite (split_join ","%char) by done.
  clear Hfree Hne. induction Hnonempty as [|x l Hx _ IH]; [done|].
  rewrite filter_cons_True by done. by rewrite IH.
Qed.

(** ** What the built-in templates render *)

Lemma append_empty_r s : s +:+ "" = s.
Proof.
  induction s as [|c s IH]; [done|].
  change (String c (s +:+ "") = String c s). by rewrite IH.
Qed.

Lemma append_assoc_string a b c : (a +:+ b) +:+ c = a +:+ b +:+ c.
Proof.
  induction a as [|x a IH]; [done|].
  change (String x ((a +:+ b) +:+ c) = String x (a +:+ b +:+ c)). by rewrite IH.
Qed.

Lemma concat_cons x l : String.concat "" (x :: l) = x +:+ String.concat "" l.
Proof. destruct l; simpl; [by rewrite append_empty_r|done]. Qed.

Lemma concat_app l1 l2 :
  String.concat "" (l1 ++ l2) = String.concat "" l1 +:+ String.concat "" l2.
Proof.
  induction l1 as [|x l1 IH]; [done|].
  rewrite <-app_comm_cons, !concat_cons, IH. by rewrite append_assoc_string.
Qed.

Lemma concat_flat_map {A} (f : A → list string) l :
  String.concat "" (flat_map f l)
  = String.concat "" (map (λ x, String.concat "" (f x)) l).
Proof.
  induction l as [|x l IH]; [done|].
  cbn [flat_map map]. by rewrite concat_app, concat_cons, IH.
Qed.

(** A chat-shaped template writes, message by message, what its role
    sections write, and then its closing text. *)
Lemma render_by_turns ov tpl body closing turn ms :
  Mustache.parse (template_source tpl)
    = Some [Mustache.Section "messages" body; Mustache.Text closing] →
  forallb (bucket_section (roles_of ov)) body = true →
  (∀ all m, String.concat "" (render_message (roles_of ov) body all m) = turn m) →
  messagesToPromptFactory ov tpl ms
  = Some (String.concat "" (map turn ms) +:+ closing).
Proof.
  intros Hparse Hbody Hturn.
  unfold messagesToPromptFactory, PromptTemplate_render, Mustache.render.
  rewrite Hparse. cbn [mbind option_bind]. f_equal.
  assert (Hshape : chat_shaped (roles_of ov)
                     [Mustache.Section "messages" body; Mustache.Text closing]
                   = true).
  { cbn [chat_shaped]. by rewrite Hbody. }
  destruct (render_chat_shaped (roles_of ov) _ ms Hshape)
    as (body' & closing' & [= <- <-] & _ & ->).
  rewrite concat_app, concat_flat_map. f_equal.
  f_equal. apply map_ext. intros m. apply Hturn.
Qed.

Lemma default_roles_unrecognized r :
  r ∉ ["system"; "user"; "assistant"] → recognized (roles_of ∅) r = false.
Proof.
  intros Hr. destruct (recognized (roles_of ∅) r) eqn:E; [|done].
  apply recognized_spec in E as [b Hb].
  rewrite roles_of_lookup, lookup_empty in Hb.
  apply default_roles_lookup in Hb as [-> Hb]. done.
Qed.

Lemma llama31_roles_unrecognized r :
  r ∉ ["system"; "user"; "assistant"; "ipython"] →
  recognized (roles_of {[ "ipython" := Some "ipython" ]}) r = false.
Proof.
  intros Hr.
  destruct (recognized (roles_of {[ "ipython" := Some "ipython" ]}) r) eqn:E;
    [|done].
  apply recognized_spec in E as [b Hb]. rewrite roles_of_lookup in Hb.
  destruct (decide (b = "ipython")) as [->|Hne].
  - rewrite lookup_singleton_eq in Hb. injection Hb as <-.
    destruct Hr. do 3 apply list_elem_of_further. apply list_elem_of_here.
  - rewrite lookup_singleton_ne in Hb by done.
    apply default_roles_lookup in Hb as [-> Hb]. destruct Hr.
    change ["system"; "user"; "assistant"; "ipython"]
      with (["system"; "user"; "assistant"] ++ ["ipython"])%list.
    apply elem_of_app. by left.
Qed.

Ltac known_role r :=
  destruct (decide (r = "system")) as [->|?]; [vm_compute; reflexivity|];
  destruct (decide (r = "user")) as [->|?]; [vm_compute; reflexivity|];
  destruct (decide (r = "assistant")) as [->|?]; [vm_compute; reflexivity|].

Ltac not_among :=
  rewrite !not_elem_of_cons; split_and!; try done; apply not_elem_of_nil.

(** X14: the llama3 template, on any list of messages, writes one turn per
    system, user or assistant message, in the order of the messages and
    nothing for any other message, and ends with the open assistant
    header; rendering never fails.  (The template engine is the one
    modelled from the spec.) *)
Theorem llama3_renders (ms : list BaseMessage) :
  messagesToPrompt llama3 (template llama3) ms
  = Some (String.concat "" (map (llama_turn ["system"; "user"; "assistant"]) ms)
          +:+ "<|start_header_id|>assistant<|end_header_id|>" +:+ nl).
Proof.
  eapply (render_by_turns ∅); [vm_compute; reflexivity|vm_compute; reflexivity|].
  intros all [r x]. unfold llama_turn. cbn [role text].
  known_role r.
  rewrite render_message_unrecognized;
    [|vm_compute; reflexivity|apply default_roles_unrecognized; not_among].
  rewrite bool_decide_eq_false_2 by not_among. done.
Qed.

(** X15: the llama3.1 template does the same with one more role: an
    ipython message gets a turn of its own, which the llama3 template
    leaves out; on messages without the ipython role the two templates
    write the same prompt.  (The template engine is the one modelled from
    the spec.) *)
Theorem llama31_renders (ms : list BaseMessage) :
  messagesToPrompt llama31 (template llama31) ms
  = Some (String.concat ""
            (map (llama_turn ["system"; "user"; "assistant"; "ipython"]) ms)
          +:+ "<|start_header_id|>assistant<|end_header_id|>" +:+ nl) ∧
  (Forall (λ m, role m ≠ "ipython") ms →
   messagesToPrompt llama31 (template llama31) ms
   = messagesToPrompt llama3 (template llama3) ms).
Proof.
  assert (H : messagesToPrompt llama31 (template llama31) ms
    = Some (String.concat ""
              (map (llama_turn ["system"; "user"; "assistant"; "ipython"]) ms)
            +:+ "<|start_header_id|>assistant<|end_header_id|>" +:+ nl)).
  { eapply (render_by_turns {[ "ipython" := Some "ipython" ]});
      [vm_compute; reflexivity|vm_compute; reflexivity|].
    intros all [r x]. unfold llama_turn. cbn [role text].
    known_role r.
    destruct (decide (r = "ipython")) as [->|?]; [vm_compute; reflexivity|].
    rewrite render_message_unrecognized;
      [|vm_compute; reflexivity|apply llama31_roles_unrecognized; not_among].
    rewrite bool_decide_eq_false_2 by not_among. done. }
  split; [done|]. intros Hms. rewrite H, llama3_renders. do 3 f_equal.
  apply Forall_fmap_ext_1. eapply Forall_impl; [done|].
  intros [r x] Hr. unfold llama_turn. cbn [role text] in *.
  assert (Hsame : bool_decide (r ∈ ["system"; "user"; "assistant"; "ipython"])
                  = bool_decide (r ∈ ["system"; "user"; "assistant"])).
  { apply bool_decide_ext.
    change ["system"; "user"; "assistant"; "ipython"]
      with (["system"; "user"; "assistant"] ++ ["ipython"])%list.
    rewrite elem_of_app, list_elem_of_singleton. split; [|by left].
    by intros [?|?]. }
  by rewrite Hsame.
Qed.

Lemma llama31_renders_witness :
  messagesToPrompt llama31 (template llama31)
    [ {| role := "user"; text := "hi" |}; an_unknown_role_message ]
  = messagesToPrompt llama3 (template llama3)
      [ {| role := "user"; text := "hi" |}; an_unknown_role_message ].
Proof.
  apply (proj2 (llama31_renders _)).
  repeat apply Forall_cons_2; [discriminate|discriminate|apply Forall_nil_2].
Defined.

(** X16: the qwen2 template, on any list of messages, writes one turn per
    system, user or assistant message ([<|im_start|>], the role, the text
    on its own line, [<|im_end|>]), in the order of the messages and
    nothing for any other message, and ends with the open assistant turn;
    the undefined variable [end] of the template contributes nothing.
    (The template engine is the one modelled from the spec.) *)
Theorem qwen2_renders (ms : list BaseMessage) :
  messagesToPrompt qwen2 (template qwen2) ms
  = Some (String.concat "" (map qwen2_turn ms)
          +:+ "<|im_start|>assistant" +:+ nl).
Proof.
  eapply (render_by_turns ∅); [vm_compute; reflexivity|vm_compute; reflexivity|].
  intros all [r x]. unfold qwen2_turn. cbn [role text].
  known_role r.
  rewrite render_message_unrecognized;
    [|vm_compute; reflexivity|apply default_roles_unrecognized; not_among].
  rewrite bool_decide_eq_false_2 by not_among. done.
Qed.
